(** * Host-side argument checking of the layer-norm CUDA binding

    Shallow embedding of [apex/normalization/csrc/layer_norm_cuda.cpp]:
    the dimension-collapsing routine [compute_n1_n2], the three
    [check_args] overloads, the output allocation templates and the four
    entry points exported through pybind11.

    Only tensor metadata is modelled (sizes, element type, device,
    contiguity, definedness); the numerical kernels are external and are
    represented by the launch events they are called with. *)

From Stdlib Require Import ZArith List String Bool Lia DecimalString.
Import ListNotations.
Open Scope string_scope.
Open Scope list_scope.
Open Scope Z_scope.

(* ===================================================================== *)
(** * Machine integers *)
(* ===================================================================== *)

(** C++ [int] is 32 bits wide and [int64_t] 64 bits wide; both are two's
    complement.  A value that does not fit is reduced modulo [2^bits]
    (the conversion every supported compiler implements). *)
Module MachineInt.

Definition wrap (bits x : Z) : Z :=
  (x + 2 ^ (bits - 1)) mod 2 ^ bits - 2 ^ (bits - 1).

Definition to_int (x : Z) : Z := wrap 32 x.
Definition to_int64 (x : Z) : Z := wrap 64 x.
Definition to_size_t (x : Z) : Z := x mod 2 ^ 64.

Definition INT_MIN : Z := - 2 ^ 31.
Definition INT_MAX : Z := 2 ^ 31 - 1.

Definition fits_int (x : Z) : Prop := INT_MIN <= x <= INT_MAX.

(** [n *= x] where [n] is an [int] and [x] an [int64_t]: [n] is promoted,
    the product is formed in 64 bits and converted back to [int]. *)
Definition mul_assign (n x : Z) : Z := to_int (to_int64 (n * x)).

End MachineInt.
Import MachineInt.

(* ===================================================================== *)
(** * Outcomes *)
(* ===================================================================== *)

Inductive exn : Type :=
| runtime_error (what : string)      (* throw std::runtime_error(what) *)
| at_error (what : string)           (* AT_ASSERTM(cond, what) failed *)
| not_implemented (name : string)    (* default case of the dtype dispatch *)
| assertion_failed                   (* assert(...) of <cassert> failed *)
| out_of_bounds.                     (* ArrayRef read outside the array *)

Inductive result (A : Type) : Type :=
| Ok (a : A)
| Err (e : exn).
Arguments Ok {A} a.
Arguments Err {A} e.

Definition rbind {A B} (r : result A) (k : A -> result B) : result B :=
  match r with
  | Ok a => k a
  | Err e => Err e
  end.

Declare Scope result_scope.
Delimit Scope result_scope with result.
Notation "x <- r ;; k" := (rbind r (fun x => k))
  (at level 61, r at next level, right associativity) : result_scope.
Notation "r ;;; k" := (rbind r (fun _ => k))
  (at level 61, right associativity) : result_scope.
Open Scope result_scope.

Definition is_ok {A} (r : result A) : bool :=
  match r with Ok _ => true | Err _ => false end.

(** [for (int i = 0; i < N; ++i) body], threading the loop-carried
    variables [s].  The loop runs [max 0 N] times with [i = 0 .. N-1]. *)
Fixpoint for_range {S} (count : nat) (i : Z)
         (body : Z -> S -> result S) (s : S) : result S :=
  match count with
  | O => Ok s
  | Datatypes.S count' =>
      s' <- body i s ;; for_range count' (i + 1) body s'
  end.

Definition for_int {S} (N : Z) (body : Z -> S -> result S) (s : S) : result S :=
  for_range (Z.to_nat N) 0 body s.

(* ===================================================================== *)
(** * Tensors and dimension lists *)
(* ===================================================================== *)

(** Element types of the tensor runtime. *)
Inductive ScalarType : Type :=
| kByte | kChar | kShort | kInt | kLong
| kHalf | kFloat | kDouble
| kComplexHalf | kComplexFloat | kComplexDouble
| kUndefined.

(** The metadata of an [at::Tensor] that the binding inspects. *)
Record Tensor : Type := mkTensor {
  defined : bool;
  sizes : list Z;            (* at::IntList of int64_t *)
  scalar_type : ScalarType;
  is_cuda : bool;
  is_contiguous : bool
}.

(** [size()] of a dimension list, [dim()] / [ndimension()] of a tensor.
    An in-memory array of 8-byte entries has fewer than [2^61] of them, so
    these counts are exact as [size_t] and as [int64_t]. *)
Definition size (l : list Z) : Z := Z.of_nat (List.length l).
Definition dim (t : Tensor) : Z := size (sizes t).
Definition ndimension (t : Tensor) : Z := dim t.

(** [l[i]]: the index is converted to [size_t], so a negative [i] lands
    outside every array. *)
Definition at_ (l : list Z) (i : Z) : result Z :=
  if i <? 0 then Err out_of_bounds
  else match nth_error l (Z.to_nat i) with
       | Some x => Ok x
       | None => Err out_of_bounds
       end.

(** [ArrayRef::equals]: same length and the same entries. *)
Fixpoint equals (a b : list Z) : bool :=
  match a, b with
  | [], [] => true
  | x :: a', y :: b' => (x =? y) && equals a' b'
  | _, _ => false
  end.

(** [ArrayRef::slice(N)]: drop the first [N] entries. *)
Definition slice (l : list Z) (N : Z) : list Z := skipn (Z.to_nat N) l.

(** [assert(c)]. *)
Definition assert (c : bool) : result unit :=
  if c then Ok tt else Err assertion_failed.

(* ===================================================================== *)
(** * Stream output *)
(* ===================================================================== *)

(** [ss << x] for an [int64_t]: decimal digits, with a leading minus sign
    for negative values. *)
Definition show_int64 (x : Z) : string := NilZero.string_of_int (Z.to_int x).

(** [ss << list] for an [at::IntList]: the entries separated by [", "]
    between square brackets. *)
Fixpoint show_entries (first : bool) (l : list Z) : string :=
  match l with
  | [] => ""
  | x :: l' =>
      (if first then "" else ", ") ++ show_int64 x ++ show_entries false l'
  end.

Definition show_IntList (l : list Z) : string :=
  "[" ++ show_entries true l ++ "]".

(** The loop [for (auto size : normalized_shape) ss << ", " << size;]. *)
Fixpoint show_pattern_tail (l : list Z) : string :=
  match l with
  | [] => ""
  | x :: l' => ", " ++ show_int64 x ++ show_pattern_tail l'
  end.

(* ===================================================================== *)
(** * compute_n1_n2 and check_args *)
(* ===================================================================== *)

(** [int idiff = input.ndimension() - normalized_shape.size();]: the
    difference is formed in [size_t] and converted to [int]. *)
Definition idiff_of (input : Tensor) (normalized_shape : list Z) : Z :=
  to_int (to_size_t (ndimension input - size normalized_shape)).

(** The condition [input.sizes()[i+idiff] == normalized_shape[i]] that the
    first loop asserts at index [i]. *)
Definition asserted (input : Tensor) (normalized_shape : list Z)
           (idiff i : Z) : result bool :=
  a <- at_ (sizes input) (to_int (i + idiff)) ;;
  b <- at_ normalized_shape i ;;
  Ok (a =? b).

(** [compute_n1_n2(input, normalized_shape, n1, n2)].  [n1] and [n2] are
    [int&] parameters: the incoming values are those of the caller's
    variables and the returned pair holds their values on return. *)
Definition compute_n1_n2 (input : Tensor) (normalized_shape : list Z)
           (n1 n2 : Z) : result (Z * Z) :=
  let idiff := idiff_of input normalized_shape in
  let n2 := 1 in
  n2 <- for_int (to_int (size normalized_shape))
          (fun i n2 =>
             c <- asserted input normalized_shape idiff i ;;
             assert c ;;;
             x <- at_ normalized_shape i ;;
             Ok (mul_assign n2 x))
          n2 ;;
  let n1 := 1 in
  n1 <- for_int idiff
          (fun i n1 =>
             x <- at_ (sizes input) i ;;
             Ok (mul_assign n1 x))
          n1 ;;
  Ok (n1, n2).

(** [check_args(normalized_shape, gamma, beta)]. *)
Definition check_args_gamma_beta (normalized_shape : list Z)
           (gamma beta : Tensor) : result unit :=
  if defined gamma && negb (equals (sizes gamma) normalized_shape) then
    Err (runtime_error
           ("Expected gamma to be of same shape as normalized_shape, but got "
            ++ "gamma of shape " ++ show_IntList (sizes gamma)
            ++ " and normalized_shape=" ++ show_IntList normalized_shape))
  else if defined beta && negb (equals (sizes beta) normalized_shape) then
    Err (runtime_error
           ("Expected beta to be of same shape as normalized_shape, but got "
            ++ "beta of shape " ++ show_IntList (sizes beta)
            ++ " and normalized_shape=" ++ show_IntList normalized_shape))
  else Ok tt.

(** [check_args(input, normalized_shape, n1, n2)]. *)
Definition check_args_input (input : Tensor) (normalized_shape : list Z)
           (n1 n2 : Z) : result (Z * Z) :=
  let normalized_ndim := size normalized_shape in
  if normalized_ndim <? 1 then
    Err (runtime_error
           ("Expected normalized_shape to be at least 1-dimensional, i.e., "
            ++ "containing at least one element, but got normalized_shape="
            ++ show_IntList normalized_shape))
  else
    let input_shape := sizes input in
    let input_ndim := dim input in
    if (input_ndim <? normalized_ndim)
       || negb (equals (slice input_shape (input_ndim - normalized_ndim))
                       normalized_shape) then
      Err (runtime_error
             ("Given normalized_shape=" ++ show_IntList normalized_shape
              ++ ", expected input with shape [*"
              ++ show_pattern_tail normalized_shape
              ++ "], but got input of size" ++ show_IntList input_shape))
    else compute_n1_n2 input normalized_shape n1 n2.

(** [check_args(input, normalized_shape, gamma, beta, n1, n2)]. *)
Definition check_args (input : Tensor) (normalized_shape : list Z)
           (gamma beta : Tensor) (n1 n2 : Z) : result (Z * Z) :=
  n <- check_args_input input normalized_shape n1 n2 ;;
  check_args_gamma_beta normalized_shape gamma beta ;;;
  Ok n.

(* ===================================================================== *)
(** * Allocation, kernels and the entry points *)
(* ===================================================================== *)

(** What a call does to the outside world, in program order: buffers
    obtained from the tensor runtime and kernels handed to the device. *)
Inductive event : Type :=
| Allocate (shape : list Z) (dtype : ScalarType)
| LaunchForward (n1 n2 : Z) (normalized_shape : list Z) (affine : bool)
| LaunchBackward (n1 n2 : Z) (normalized_shape : list Z) (affine : bool).

(** Computations of the entry points: an outcome together with the events
    performed so far.  A throw keeps the events that preceded it. *)
Definition M (A : Type) : Type := list event -> result A * list event.

Definition ret {A} (a : A) : M A := fun w => (Ok a, w).

Definition throw {A} (e : exn) : M A := fun w => (Err e, w).

Definition bind {A B} (m : M A) (k : A -> M B) : M B :=
  fun w =>
    match m w with
    | (Ok a, w') => k a w'
    | (Err e, w') => (Err e, w')
    end.

Definition lift {A} (r : result A) : M A := fun w => (r, w).

Definition emit (e : event) : M unit := fun w => (Ok tt, w ++ [e]).

Declare Scope m_scope.
Delimit Scope m_scope with M.
Notation "x <~ m ;; k" := (bind m (fun x => k))
  (at level 61, m at next level, right associativity) : m_scope.
Notation "' pat <~ m ;; k" := (bind m (fun x => match x with pat => k end))
  (at level 61, pat pattern, m at next level, right associativity) : m_scope.
Notation "m >> k" := (bind m (fun _ => k))
  (at level 61, right associativity) : m_scope.
Open Scope m_scope.

(** [at::empty(shape, options.dtype(dtype))] and [at::empty_like(t)]: a
    fresh defined, contiguous tensor on the device of the options. *)
Definition empty (shape : list Z) (dtype : ScalarType) (cuda : bool) : M Tensor :=
  emit (Allocate shape dtype) >>
  ret (mkTensor true shape dtype cuda true).

Definition empty_like (t : Tensor) : M Tensor :=
  empty (sizes t) (scalar_type t) (is_cuda t).

(** The C++ element type [scalar_t] the dispatch instantiates the lambda
    with. *)
Inductive scalar_t : Type :=
| uint8_t | int8_t | int16_t | int32_t | int64_t | Half | float | double.

(** [AT_DISPATCH_ALL_TYPES_AND_HALF(type, name, body)]: the macro of the
    tensor runtime runs [body] at the C++ type of the element type, and
    fails for element types outside the eight it lists. *)
Definition AT_DISPATCH_ALL_TYPES_AND_HALF {A} (type : ScalarType)
           (name : string) (body : scalar_t -> M A) : M A :=
  match type with
  | kByte => body uint8_t
  | kChar => body int8_t
  | kDouble => body double
  | kFloat => body float
  | kInt => body int32_t
  | kLong => body int64_t
  | kShort => body int16_t
  | kHalf => body Half
  | _ => throw (not_implemented name)
  end.

(** The primary template and its [int64_t] and [double] specialisations.
    The [int] argument [n1] becomes the single entry of the shape. *)
Definition allocate_layer_norm_output_tensors (T : scalar_t)
           (input : Tensor) (n1 : Z) : M (Tensor * Tensor * Tensor) :=
  match T with
  | int64_t =>
      output <~ empty_like input ;;
      mean <~ empty [n1] kDouble (is_cuda input) ;;
      invvar <~ empty_like mean ;;
      ret (output, mean, invvar)
  | double =>
      output <~ empty_like input ;;
      mean <~ empty [n1] kDouble (is_cuda input) ;;
      invvar <~ empty_like mean ;;
      ret (output, mean, invvar)
  | _ =>
      output <~ empty_like input ;;
      mean <~ empty [n1] kFloat (is_cuda input) ;;
      invvar <~ empty_like mean ;;
      ret (output, mean, invvar)
  end.

(** [cuda_layer_norm] and [cuda_layer_norm_gradient] are defined in the
    device code; a call is recorded with the dimensions it receives. *)
Definition cuda_layer_norm (n1 n2 : Z) (normalized_shape : list Z)
           (affine : bool) : M unit :=
  emit (LaunchForward n1 n2 normalized_shape affine).

Definition cuda_layer_norm_gradient (n1 n2 : Z) (normalized_shape : list Z)
           (affine : bool) : M unit :=
  emit (LaunchBackward n1 n2 normalized_shape affine).

(** [CHECK_CUDA(x)], [CHECK_CONTIGUOUS(x)] and [CHECK_INPUT(x)]; [name] is
    the stringified argument [#x]. *)
Definition CHECK_CUDA (name : string) (x : Tensor) : M unit :=
  if is_cuda x then ret tt
  else throw (at_error (name ++ " must be a CUDA tensor")).

Definition CHECK_CONTIGUOUS (name : string) (x : Tensor) : M unit :=
  if is_contiguous x then ret tt
  else throw (at_error (name ++ " must be contiguous")).

Definition CHECK_INPUT (name : string) (x : Tensor) : M unit :=
  CHECK_CUDA name x >> CHECK_CONTIGUOUS name x.

(** The caller's [int n1,n2;] are uninitialised; [u1] and [u2] stand for
    whatever they hold. *)
Section EntryPoints.
Variables u1 u2 : Z.

Definition layer_norm (input : Tensor) (normalized_shape : list Z)
  : M (list Tensor) :=
  CHECK_INPUT "input" input >>
  '(n1, n2) <~ lift (check_args_input input normalized_shape u1 u2) ;;
  '(output, mean, invvar) <~
     AT_DISPATCH_ALL_TYPES_AND_HALF (scalar_type input)
       "allocate_layer_norm_output_tensors"
       (fun T => allocate_layer_norm_output_tensors T input n1) ;;
  cuda_layer_norm n1 n2 normalized_shape false >>
  ret [output; mean; invvar].

Definition layer_norm_affine (input : Tensor) (normalized_shape : list Z)
           (gamma beta : Tensor) : M (list Tensor) :=
  CHECK_INPUT "input" input >>
  CHECK_INPUT "gamma" gamma >>
  CHECK_INPUT "beta" beta >>
  '(n1, n2) <~ lift (check_args input normalized_shape gamma beta u1 u2) ;;
  '(output, mean, invvar) <~
     AT_DISPATCH_ALL_TYPES_AND_HALF (scalar_type input)
       "allocate_layer_norm_output_tensors"
       (fun T => allocate_layer_norm_output_tensors T input n1) ;;
  cuda_layer_norm n1 n2 normalized_shape true >>
  ret [output; mean; invvar].

Definition layer_norm_gradient (dout mean invvar input : Tensor)
           (normalized_shape : list Z) : M Tensor :=
  CHECK_INPUT "dout" dout >>
  CHECK_INPUT "mean" mean >>
  CHECK_INPUT "invvar" invvar >>
  CHECK_INPUT "input" input >>
  '(n1, n2) <~ lift (check_args_input input normalized_shape u1 u2) ;;
  grad_input <~ empty_like input ;;
  cuda_layer_norm_gradient n1 n2 normalized_shape false >>
  ret grad_input.

Definition layer_norm_gradient_affine (dout mean invvar input : Tensor)
           (normalized_shape : list Z) (gamma beta : Tensor)
  : M (list Tensor) :=
  CHECK_INPUT "dout" dout >>
  CHECK_INPUT "mean" mean >>
  CHECK_INPUT "invvar" invvar >>
  CHECK_INPUT "input" input >>
  CHECK_INPUT "gamma" gamma >>
  CHECK_INPUT "beta" beta >>
  '(n1, n2) <~ lift (check_args input normalized_shape gamma beta u1 u2) ;;
  grad_input <~ empty_like input ;;
  grad_gamma <~ empty_like gamma ;;
  grad_beta <~ empty_like beta ;;
  cuda_layer_norm_gradient n1 n2 normalized_shape true >>
  ret [grad_input; grad_gamma; grad_beta].

End EntryPoints.

(* ===================================================================== *)
(** * Notions used in the statements *)
(* ===================================================================== *)

(** A defined, contiguous CUDA tensor of the given shape and element type. *)
Definition cuda_tensor (shape : list Z) (dtype : ScalarType) : Tensor :=
  mkTensor true shape dtype true true.

(** The mathematical product of a dimension list, as a left fold from 1. *)
Definition product (l : list Z) : Z := fold_left Z.mul l 1.

(** The same fold with the multiplication the code performs on its [int]
    accumulator. *)
Definition int_product (l : list Z) : Z := fold_left mul_assign l 1.

(** The leading entries of the input shape that are not normalized. *)
Definition leading (input : Tensor) (normalized_shape : list Z) : list Z :=
  firstn (List.length (sizes input) - List.length normalized_shape) (sizes input).

(** [normalized_shape] is a suffix of the shape of [input]. *)
Definition is_suffix (input : Tensor) (normalized_shape : list Z) : Prop :=
  exists pre, sizes input = pre ++ normalized_shape.

(** The rank of [input] is representable as an [int]. *)
Definition rank_fits_int (input : Tensor) : Prop := dim input <= INT_MAX.

(** The two guards of [check_args], as the code evaluates them. *)
Definition empty_guard (normalized_shape : list Z) : bool :=
  size normalized_shape <? 1.

Definition mismatch_guard (input : Tensor) (normalized_shape : list Z) : bool :=
  (dim input <? size normalized_shape)
  || negb (equals (slice (sizes input) (dim input - size normalized_shape))
                  normalized_shape).

(** [part] occurs in [whole]. *)
Definition includes (part whole : string) : Prop :=
  exists before after, whole = (before ++ part ++ after)%string.

(** A tensor passes the affine check when it is undefined or has exactly
    the normalized shape. *)
Definition affine_ok (normalized_shape : list Z) (t : Tensor) : Prop :=
  defined t = true -> sizes t = normalized_shape.

(** Unfolds the entry points down to the outcome and event list. *)
Ltac unfold_entry :=
  unfold layer_norm, layer_norm_affine, layer_norm_gradient,
    layer_norm_gradient_affine, CHECK_INPUT, CHECK_CUDA, CHECK_CONTIGUOUS,
    AT_DISPATCH_ALL_TYPES_AND_HALF, allocate_layer_norm_output_tensors,
    cuda_layer_norm, cuda_layer_norm_gradient, empty_like, empty,
    bind, ret, throw, lift, emit.

(** Splits on every tensor flag the checks read. *)
Ltac split_flags :=
  repeat match goal with
         | |- context [is_cuda ?t] => destruct (is_cuda t)
         | |- context [is_contiguous ?t] => destruct (is_contiguous t)
         end.

(** Runs the checks of one tensor, in the order of [CHECK_INPUT]. *)
Ltac check_tensor t :=
  destruct (is_cuda t);
  [destruct (is_contiguous t)|];
  cbn;
  try (intros H; injection H as <-; reflexivity).

(** How many binary digits of a value an element of the type holds: the
    value bits of the integer types and the significand width of the
    floating-point ones. *)
Definition precision_bits (t : ScalarType) : Z :=
  match t with
  | kByte => 8 | kChar => 7 | kShort => 15 | kInt => 31 | kLong => 63
  | kHalf | kComplexHalf => 11
  | kFloat | kComplexFloat => 24
  | kDouble | kComplexDouble => 53
  | kUndefined => 0
  end.

Definition is_floating_point (t : ScalarType) : bool :=
  match t with
  | kHalf | kFloat | kDouble => true
  | _ => false
  end.

(** [stat] is a floating-point type of more precision than [elem]. *)
Definition extended_precision_float (stat elem : ScalarType) : bool :=
  is_floating_point stat && (precision_bits elem <? precision_bits stat).

(** The element type the allocation gives [mean] and [invvar]. *)
Definition statistics_type (elem : ScalarType) : ScalarType :=
  match elem with
  | kDouble | kLong => kDouble
  | _ => kFloat
  end.

(** The element types the dtype dispatch of the forward entry points
    has a case for. *)
Definition supported (t : ScalarType) : bool :=
  match t with
  | kByte | kChar | kShort | kInt | kLong | kHalf | kFloat | kDouble => true
  | _ => false
  end.

(** A tensor that passes [CHECK_INPUT]. *)
Definition usable (t : Tensor) : Prop :=
  is_cuda t = true /\ is_contiguous t = true.


(** The error, if any, that [CHECK_INPUT(x)] raises for the argument
    called [name], and the first error of a sequence of such checks. *)
Definition check_failure (name : string) (x : Tensor) : option exn :=
  if negb (is_cuda x) then Some (at_error (name ++ " must be a CUDA tensor"))
  else if negb (is_contiguous x) then
    Some (at_error (name ++ " must be contiguous"))
  else None.

Fixpoint first_failure (args : list (string * Tensor)) : option exn :=
  match args with
  | [] => None
  | (name, x) :: rest =>
      match check_failure name x with
      | Some e => Some e
      | None => first_failure rest
      end
  end.

(* ===================================================================== *)
(** * Machine integer facts *)
(* ===================================================================== *)

Section MachineIntFacts.

Lemma to_int_congr a b :
  a mod 2 ^ 32 = b mod 2 ^ 32 -> to_int a = to_int b.
Proof.
  intros H. unfold to_int, wrap.
  rewrite (Z.add_mod a), (Z.add_mod b), H by lia. reflexivity.
Qed.

Lemma to_int_mod a : to_int a mod 2 ^ 32 = a mod 2 ^ 32.
Proof.
  unfold to_int, wrap. change (32 - 1) with 31.
  rewrite Zminus_mod, Z.mod_mod by lia.
  rewrite <- Zminus_mod. f_equal. lia.
Qed.

Lemma to_int64_mod a : to_int64 a mod 2 ^ 32 = a mod 2 ^ 32.
Proof.
  unfold to_int64, wrap. change (64 - 1) with 63.
  pose proof (Z.div_mod (a + 2 ^ 63) (2 ^ 64) ltac:(lia)) as D.
  replace ((a + 2 ^ 63) mod 2 ^ 64 - 2 ^ 63)
    with (a + (- ((a + 2 ^ 63) / 2 ^ 64) * 2 ^ 32) * 2 ^ 32) by lia.
  apply Z.mod_add. lia.
Qed.

Lemma to_int_fits a : fits_int (to_int a).
Proof.
  unfold fits_int, INT_MIN, INT_MAX, to_int, wrap. change (32 - 1) with 31.
  pose proof (Z.mod_pos_bound (a + 2 ^ 31) (2 ^ 32) ltac:(lia)). lia.
Qed.

Lemma to_int_id a : fits_int a -> to_int a = a.
Proof.
  unfold fits_int, INT_MIN, INT_MAX, to_int, wrap. change (32 - 1) with 31.
  intros H. rewrite Z.mod_small by lia. lia.
Qed.

Lemma to_int_eq_iff a : to_int a = a <-> fits_int a.
Proof.
  split; [intros H; rewrite <- H; apply to_int_fits | apply to_int_id].
Qed.

Lemma mul_assign_eq n x : mul_assign n x = to_int (n * x).
Proof. unfold mul_assign. apply to_int_congr, to_int64_mod. Qed.

Lemma to_int_mul_l a b : to_int (to_int a * b) = to_int (a * b).
Proof.
  apply to_int_congr.
  rewrite (Z.mul_mod (to_int a)), to_int_mod, <- Z.mul_mod by lia.
  reflexivity.
Qed.

Lemma to_int_mul a b : to_int (to_int a * to_int b) = to_int (a * b).
Proof.
  rewrite to_int_mul_l, Z.mul_comm, to_int_mul_l, Z.mul_comm. reflexivity.
Qed.

Lemma fold_mul_assign l : forall a,
  fold_left mul_assign l (to_int a) = to_int (fold_left Z.mul l a).
Proof.
  induction l as [|x l IH]; intros a; simpl; [reflexivity|].
  rewrite mul_assign_eq, to_int_mul_l. apply IH.
Qed.

Lemma int_product_eq l : int_product l = to_int (product l).
Proof.
  unfold int_product, product.
  rewrite <- fold_mul_assign. reflexivity.
Qed.

Lemma fold_mul_scale l : forall a, fold_left Z.mul l a = a * fold_left Z.mul l 1.
Proof.
  induction l as [|x l IH]; intros a; cbn [fold_left]; [lia|].
  rewrite IH, (IH (1 * x)). lia.
Qed.

Lemma product_app l1 l2 : product (l1 ++ l2) = product l1 * product l2.
Proof.
  unfold product. rewrite fold_left_app. apply fold_mul_scale.
Qed.

End MachineIntFacts.

(* ===================================================================== *)
(** * Lists, loops and array reads *)
(* ===================================================================== *)

Section LoopFacts.

Lemma equals_spec a : forall b, equals a b = true <-> a = b.
Proof.
  induction a as [|x a IH]; intros [|y b]; simpl; split; intros H;
    try reflexivity; try discriminate.
  - apply andb_true_iff in H as [Hx Hr].
    apply Z.eqb_eq in Hx. apply IH in Hr. congruence.
  - injection H as -> ->. rewrite Z.eqb_refl. simpl. apply IH. reflexivity.
Qed.

Lemma equals_false a b : equals a b = false <-> a <> b.
Proof.
  rewrite <- equals_spec. destruct (equals a b); split; congruence.
Qed.

Lemma at_nth l k x :
  nth_error l k = Some x -> at_ l (Z.of_nat k) = Ok x.
Proof.
  intros H. unfold at_.
  destruct (Z.ltb_spec (Z.of_nat k) 0) as [Hn|_]; [lia|].
  rewrite Nat2Z.id, H. reflexivity.
Qed.

(** A loop whose body folds [f] over the entries it visits computes the
    left fold of [f]. *)
Lemma for_range_fold {S} (f : S -> Z -> S) body xs : forall i s,
  (forall k x s', nth_error xs k = Some x ->
                  body (i + Z.of_nat k) s' = Ok (f s' x)) ->
  for_range (List.length xs) i body s = Ok (fold_left f xs s).
Proof.
  induction xs as [|x xs IH]; intros i s Hbody; simpl; [reflexivity|].
  pose proof (Hbody O x s eq_refl) as H0.
  rewrite Z.add_0_r in H0. rewrite H0. simpl.
  apply IH. intros k y s' Hk.
  replace (i + 1 + Z.of_nat k) with (i + Z.of_nat (Datatypes.S k)) by lia.
  apply Hbody. exact Hk.
Qed.

Lemma for_int_fold {S} (f : S -> Z -> S) body xs s :
  (forall k x s', nth_error xs k = Some x ->
                  body (Z.of_nat k) s' = Ok (f s' x)) ->
  for_int (size xs) body s = Ok (fold_left f xs s).
Proof.
  intros H. unfold for_int, size. rewrite Nat2Z.id.
  apply for_range_fold. intros k x s' Hk. apply H. exact Hk.
Qed.

Lemma size_app a b : size (a ++ b) = size a + size b.
Proof. unfold size. rewrite length_app. lia. Qed.

Lemma size_nonneg a : 0 <= size a.
Proof. unfold size. lia. Qed.

Lemma nth_error_size (l : list Z) k x :
  nth_error l k = Some x -> Z.of_nat k < size l.
Proof.
  intros H. unfold size.
  assert (k < List.length l)%nat by (apply nth_error_Some; congruence). lia.
Qed.

End LoopFacts.

(* ===================================================================== *)
(** * compute_n1_n2 on a shape with the normalized suffix *)
(* ===================================================================== *)

Section ComputeFacts.

Variable input : Tensor.
Variables pre normalized_shape : list Z.
Hypothesis Hshape : sizes input = pre ++ normalized_shape.
Hypothesis Hrank : rank_fits_int input.

Lemma rank_bound : size pre + size normalized_shape <= INT_MAX.
Proof.
  unfold rank_fits_int, dim in Hrank.
  rewrite Hshape, size_app in Hrank. exact Hrank.
Qed.

Lemma idiff_of_suffix : idiff_of input normalized_shape = size pre.
Proof.
  pose proof rank_bound as B.
  pose proof (size_nonneg pre). pose proof (size_nonneg normalized_shape).
  unfold idiff_of, ndimension, dim. rewrite Hshape, size_app.
  replace (size pre + size normalized_shape - size normalized_shape)
    with (size pre) by lia.
  unfold to_size_t. unfold INT_MAX in B.
  rewrite Z.mod_small by lia.
  apply to_int_id. unfold fits_int, INT_MIN, INT_MAX. lia.
Qed.

Lemma asserted_suffix k x :
  nth_error normalized_shape k = Some x ->
  asserted input normalized_shape (size pre) (Z.of_nat k) = Ok true.
Proof.
  intros Hk. pose proof rank_bound as B.
  pose proof (nth_error_size _ _ _ Hk) as Hlt.
  pose proof (size_nonneg pre).
  unfold asserted.
  rewrite to_int_id by (unfold fits_int, INT_MIN, INT_MAX in *; lia).
  replace (Z.of_nat k + size pre) with (Z.of_nat (List.length pre + k))
    by (unfold size; lia).
  rewrite (at_nth (sizes input) _ x).
  2:{ rewrite Hshape, nth_error_app2 by lia.
      replace (List.length pre + k - List.length pre)%nat with k by lia.
      exact Hk. }
  simpl. rewrite (at_nth _ _ _ Hk). simpl. rewrite Z.eqb_refl. reflexivity.
Qed.

Lemma compute_n1_n2_suffix a b :
  compute_n1_n2 input normalized_shape a b
  = Ok (int_product pre, int_product normalized_shape).
Proof.
  pose proof rank_bound as B.
  pose proof (size_nonneg pre). pose proof (size_nonneg normalized_shape).
  unfold compute_n1_n2. rewrite idiff_of_suffix.
  rewrite (to_int_id (size normalized_shape))
    by (unfold fits_int, INT_MIN, INT_MAX in *; lia).
  rewrite (for_int_fold mul_assign).
  2:{ intros k x s' Hk. rewrite (asserted_suffix k x Hk). simpl.
      rewrite (at_nth _ _ _ Hk). reflexivity. }
  simpl. rewrite (for_int_fold mul_assign).
  2:{ intros k x s' Hk. rewrite (at_nth (sizes input) k x); [reflexivity|].
      rewrite Hshape, nth_error_app1; [exact Hk|].
      apply nth_error_Some. congruence. }
  reflexivity.
Qed.

Lemma leading_suffix : leading input normalized_shape = pre.
Proof.
  unfold leading. rewrite Hshape, length_app.
  replace (List.length pre + List.length normalized_shape
           - List.length normalized_shape)%nat
    with (List.length pre + 0)%nat by lia.
  rewrite firstn_app_2. simpl. apply app_nil_r.
Qed.

Lemma slice_suffix :
  slice (sizes input) (dim input - size normalized_shape) = normalized_shape.
Proof.
  unfold slice, dim. rewrite Hshape, size_app.
  replace (size pre + size normalized_shape - size normalized_shape)
    with (size pre) by lia.
  unfold size. rewrite Nat2Z.id.
  rewrite skipn_app, skipn_all, Nat.sub_diag. reflexivity.
Qed.

End ComputeFacts.

(* ===================================================================== *)
(** * check_args(input, normalized_shape, n1, n2) *)
(* ===================================================================== *)

Section CheckArgsFacts.

Lemma check_args_input_guards input ns a b :
  empty_guard ns = false ->
  mismatch_guard input ns = false ->
  check_args_input input ns a b = compute_n1_n2 input ns a b.
Proof.
  unfold empty_guard, mismatch_guard, check_args_input.
  intros -> ->. reflexivity.
Qed.

Lemma empty_guard_false ns : ns <> [] -> empty_guard ns = false.
Proof.
  intros H. unfold empty_guard, size. destruct ns; [congruence|].
  simpl List.length. apply Z.ltb_ge. lia.
Qed.

Lemma mismatch_guard_suffix input ns :
  is_suffix input ns -> mismatch_guard input ns = false.
Proof.
  intros [pre Hpre]. unfold mismatch_guard.
  rewrite (slice_suffix input pre ns Hpre).
  replace (equals ns ns) with true by (symmetry; apply equals_spec; reflexivity).
  unfold dim. rewrite Hpre, size_app. pose proof (size_nonneg pre).
  replace (size pre + size ns <? size ns) with false
    by (symmetry; apply Z.ltb_ge; lia).
  reflexivity.
Qed.

Lemma mismatch_guard_false input ns :
  mismatch_guard input ns = false -> is_suffix input ns.
Proof.
  unfold mismatch_guard. intros H.
  apply orb_false_iff in H as [_ H]. apply negb_false_iff, equals_spec in H.
  exists (firstn (Z.to_nat (dim input - size ns)) (sizes input)).
  rewrite <- H at 2. unfold slice. symmetry. apply firstn_skipn.
Qed.

Lemma check_args_input_suffix input pre ns a b :
  ns <> [] ->
  sizes input = pre ++ ns ->
  rank_fits_int input ->
  check_args_input input ns a b = Ok (int_product pre, int_product ns).
Proof.
  intros Hne Hpre Hrank.
  rewrite check_args_input_guards.
  - apply compute_n1_n2_suffix; assumption.
  - apply empty_guard_false, Hne.
  - apply mismatch_guard_suffix. exists pre. exact Hpre.
Qed.

End CheckArgsFacts.

(* ===================================================================== *)
(** * Properties of the shape resolver *)
(* ===================================================================== *)

(** C1, as stated, fails: for the shape [[1, 2147483648]] normalized over
    [[2147483648]] the returned pair is [(1, -2147483648)], whose product
    is not the number of elements of the input. *)
Lemma resolveDimensions_product_counterexample :
  let input := cuda_tensor [1; 2147483648] kHalf in
  let normalized_shape := [2147483648] in
  normalized_shape <> []
  /\ is_suffix input normalized_shape
  /\ check_args_input input normalized_shape 0 0 = Ok (1, -2147483648)
  /\ 1 * -2147483648 <> product (sizes input).
Proof.
  cbv zeta. repeat split.
  - discriminate.
  - exists [1]. reflexivity.
  - vm_compute. discriminate.
Qed.

(** C1 (amended): when [normalized_shape] is a non-empty suffix of the
    input shape, [check_args] returns a pair [(n1, n2)] of 32-bit signed
    values whose product is congruent to the product of all input sizes
    modulo [2^32], and equal to it when the product of the leading sizes
    and the product of [normalized_shape] both fit in a 32-bit signed
    [int]. *)
Theorem resolveDimensions_product input normalized_shape u1 u2 :
  normalized_shape <> [] ->
  is_suffix input normalized_shape ->
  rank_fits_int input ->
  exists n1 n2,
    check_args_input input normalized_shape u1 u2 = Ok (n1, n2)
    /\ fits_int n1 /\ fits_int n2
    /\ (n1 * n2) mod 2 ^ 32 = product (sizes input) mod 2 ^ 32
    /\ (fits_int (product (leading input normalized_shape)) ->
        fits_int (product normalized_shape) ->
        n1 * n2 = product (sizes input)).
Proof.
  intros Hne [pre Hpre] Hrank.
  exists (int_product pre), (int_product normalized_shape).
  split; [apply check_args_input_suffix; assumption|].
  rewrite (leading_suffix input pre normalized_shape Hpre).
  rewrite Hpre, product_app, !int_product_eq.
  split; [apply to_int_fits|]. split; [apply to_int_fits|]. split.
  - rewrite Z.mul_mod, !to_int_mod, <- Z.mul_mod by lia. reflexivity.
  - intros F1 F2. rewrite !to_int_id by assumption. reflexivity.
Qed.

Lemma resolveDimensions_product_witness :
  exists n1 n2,
    check_args_input (cuda_tensor [2; 3; 8] kFloat) [3; 8] 0 0 = Ok (n1, n2)
    /\ fits_int n1 /\ fits_int n2
    /\ (n1 * n2) mod 2 ^ 32 = product [2; 3; 8] mod 2 ^ 32
    /\ (fits_int (product (leading (cuda_tensor [2; 3; 8] kFloat) [3; 8])) ->
        fits_int (product [3; 8]) ->
        n1 * n2 = product [2; 3; 8]).
Proof.
  apply (resolveDimensions_product (cuda_tensor [2; 3; 8] kFloat) [3; 8] 0 0).
  - discriminate.
  - exists [2]. reflexivity.
  - vm_compute. discriminate.
Defined.

(** C2, as stated, fails: for the shape [[46341, 46341]] normalized over
    itself the returned [n2] is [-2147479015], not the product
    [2147488281] of the entries. *)
Lemma resolveDimensions_fold_counterexample :
  let input := cuda_tensor [46341; 46341] kHalf in
  let normalized_shape := [46341; 46341] in
  normalized_shape <> []
  /\ is_suffix input normalized_shape
  /\ check_args_input input normalized_shape 0 0 = Ok (1, -2147479015)
  /\ fold_left Z.mul normalized_shape 1 = 2147488281
  /\ -2147479015 <> fold_left Z.mul normalized_shape 1.
Proof.
  cbv zeta. repeat split.
  - discriminate.
  - exists []. reflexivity.
  - vm_compute. discriminate.
Qed.

(** C2 (amended): for every valid pair, [n2] is the left fold, from 1,
    over all entries of [normalized_shape], and [n1] the left fold over
    the first [len input - len normalized_shape] input sizes, of the
    multiplication that truncates each partial product to a 32-bit signed
    [int]; zero and negative sizes take the same path.  In particular
    [[4,8]] over [[8]] gives [(4, 8)] and [[2,3,8]] over [[3,8]] gives
    [(2, 24)]. *)
Theorem resolveDimensions_fold input normalized_shape u1 u2 :
  normalized_shape <> [] ->
  is_suffix input normalized_shape ->
  rank_fits_int input ->
  check_args_input input normalized_shape u1 u2
  = Ok (fold_left mul_assign (leading input normalized_shape) 1,
        fold_left mul_assign normalized_shape 1)
  /\ (forall t, sizes t = [4; 8] ->
                check_args_input t [8] u1 u2 = Ok (4, 8))
  /\ (forall t, sizes t = [2; 3; 8] ->
                check_args_input t [3; 8] u1 u2 = Ok (2, 24)).
Proof.
  intros Hne [pre Hpre] Hrank. split; [|split].
  - rewrite (leading_suffix input pre normalized_shape Hpre).
    apply check_args_input_suffix; assumption.
  - intros t Ht.
    rewrite (check_args_input_suffix t [4] [8]); try assumption;
      [reflexivity | discriminate |].
    unfold rank_fits_int, dim. rewrite Ht. vm_compute. discriminate.
  - intros t Ht.
    rewrite (check_args_input_suffix t [2] [3; 8]); try assumption;
      [reflexivity | discriminate |].
    unfold rank_fits_int, dim. rewrite Ht. vm_compute. discriminate.
Qed.

Lemma resolveDimensions_fold_witness :
  check_args_input (cuda_tensor [5; 0; -3; 7] kFloat) [-3; 7] 0 0
  = Ok (0, -21).
Proof.
  apply (resolveDimensions_fold (cuda_tensor [5; 0; -3; 7] kFloat) [-3; 7] 0 0).
  - discriminate.
  - exists [5; 0]. reflexivity.
  - vm_compute. discriminate.
Defined.

(** C3: with an empty [normalized_shape], [check_args] throws for every
    input; the message ends with the printed shape, [[]], and no pair is
    returned. *)
Theorem resolveDimensions_empty_normalized_shape :
  forall input u1 u2,
    check_args_input input [] u1 u2
    = Err (runtime_error
             ("Expected normalized_shape to be at least 1-dimensional, i.e., "
              ++ "containing at least one element, but got normalized_shape="
              ++ show_IntList []))
    /\ is_ok (check_args_input input [] u1 u2) = false.
Proof. intros input u1 u2. split; reflexivity. Qed.

(** C8: the outcome of [check_args] is a function of the input shape and
    [normalized_shape] alone.  It does not depend on what the caller's
    [n1] and [n2] held before the call nor on the events performed before
    it, and the call performs no event of its own. *)
Theorem resolveDimensions_pure :
  forall input normalized_shape u1 u2 v1 v2 (w w' : list event),
    check_args_input input normalized_shape u1 u2
    = check_args_input input normalized_shape v1 v2
    /\ compute_n1_n2 input normalized_shape u1 u2
       = compute_n1_n2 input normalized_shape v1 v2
    /\ fst (lift (check_args_input input normalized_shape u1 u2) w)
       = fst (lift (check_args_input input normalized_shape v1 v2) w')
    /\ snd (lift (check_args_input input normalized_shape u1 u2) w) = w.
Proof.
  intros input ns u1 u2 v1 v2 w w'.
  assert (Hc : compute_n1_n2 input ns u1 u2 = compute_n1_n2 input ns v1 v2)
    by reflexivity.
  assert (Hk : check_args_input input ns u1 u2 = check_args_input input ns v1 v2).
  { unfold check_args_input. rewrite Hc. reflexivity. }
  repeat split; simpl; assumption.
Qed.

(** C9: for every valid pair the call succeeds, [n1] and [n2] are the
    mathematical products reduced to the 32-bit signed range modulo
    [2^32], and each equals its mathematical product exactly when that
    product fits in a 32-bit signed [int]. *)
Theorem compute_n1_n2_int_truncation input normalized_shape u1 u2 :
  normalized_shape <> [] ->
  is_suffix input normalized_shape ->
  rank_fits_int input ->
  exists n1 n2,
    check_args_input input normalized_shape u1 u2 = Ok (n1, n2)
    /\ n1 = to_int (product (leading input normalized_shape))
    /\ n2 = to_int (product normalized_shape)
    /\ fits_int n1 /\ fits_int n2
    /\ n1 mod 2 ^ 32 = product (leading input normalized_shape) mod 2 ^ 32
    /\ n2 mod 2 ^ 32 = product normalized_shape mod 2 ^ 32
    /\ (n1 = product (leading input normalized_shape)
        <-> fits_int (product (leading input normalized_shape)))
    /\ (n2 = product normalized_shape <-> fits_int (product normalized_shape)).
Proof.
  intros Hne [pre Hpre] Hrank.
  exists (int_product pre), (int_product normalized_shape).
  rewrite (leading_suffix input pre normalized_shape Hpre), !int_product_eq.
  split.
  { rewrite <- !int_product_eq. apply check_args_input_suffix; assumption. }
  repeat match goal with |- _ /\ _ => split end;
    try reflexivity;
    try apply to_int_fits; try apply to_int_mod; try apply to_int_eq_iff.
Qed.

Lemma compute_n1_n2_int_truncation_witness :
  exists n1 n2,
    check_args_input (cuda_tensor [3; 65536; 65536] kHalf) [65536; 65536] 0 0
    = Ok (n1, n2)
    /\ n1 = 3 /\ n2 = 0
    /\ ~ fits_int (product [65536; 65536]).
Proof.
  destruct (compute_n1_n2_int_truncation
              (cuda_tensor [3; 65536; 65536] kHalf) [65536; 65536] 0 0)
    as (n1 & n2 & Hr & H1 & H2 & _).
  - discriminate.
  - exists [3]. reflexivity.
  - vm_compute. discriminate.
  - exists n1, n2. repeat split; try assumption.
    vm_compute. intros [_ H]. apply H. reflexivity.
Defined.

(** C10: once the two guards of [check_args] have let a call through,
    every index of the first loop of [compute_n1_n2] reads both arrays in
    bounds and finds the asserted equality true, so the call returns
    normally. *)
Theorem compute_n1_n2_assert_unreachable input normalized_shape :
  empty_guard normalized_shape = false ->
  mismatch_guard input normalized_shape = false ->
  rank_fits_int input ->
  (forall i, 0 <= i < to_int (size normalized_shape) ->
     asserted input normalized_shape (idiff_of input normalized_shape) i
     = Ok true)
  /\ (forall u1 u2,
        is_ok (compute_n1_n2 input normalized_shape u1 u2) = true
        /\ compute_n1_n2 input normalized_shape u1 u2 <> Err assertion_failed).
Proof.
  intros _ Hm Hrank. apply mismatch_guard_false in Hm as [pre Hpre].
  pose proof (rank_bound input pre normalized_shape Hpre Hrank) as B.
  pose proof (size_nonneg pre). pose proof (size_nonneg normalized_shape).
  split.
  - intros i Hi.
    rewrite to_int_id in Hi by (unfold fits_int, INT_MIN, INT_MAX in *; lia).
    rewrite (idiff_of_suffix input pre normalized_shape Hpre Hrank).
    destruct (nth_error normalized_shape (Z.to_nat i)) as [x|] eqn:Hx.
    + rewrite <- (Z2Nat.id i) by lia.
      apply (asserted_suffix input pre normalized_shape Hpre Hrank _ x Hx).
    + apply nth_error_None in Hx. unfold size in Hi. lia.
  - intros u1 u2.
    rewrite (compute_n1_n2_suffix input pre normalized_shape Hpre Hrank).
    split; [reflexivity | discriminate].
Qed.

Lemma compute_n1_n2_assert_unreachable_witness :
  asserted (cuda_tensor [2; 3; 8] kFloat) [3; 8]
           (idiff_of (cuda_tensor [2; 3; 8] kFloat) [3; 8]) 1
  = Ok true.
Proof.
  apply (compute_n1_n2_assert_unreachable (cuda_tensor [2; 3; 8] kFloat) [3; 8]).
  - reflexivity.
  - reflexivity.
  - vm_compute. discriminate.
  - vm_compute. split; [discriminate | reflexivity].
Defined.

(* ===================================================================== *)
(** * Error messages *)
(* ===================================================================== *)

Lemma string_app_assoc (a b c : string) :
  ((a ++ b) ++ c = a ++ b ++ c)%string.
Proof.
  induction a as [|ch a IH]; simpl; [reflexivity|]. rewrite IH. reflexivity.
Qed.

Lemma includes_here part after : includes part (part ++ after)%string.
Proof. exists "", after. reflexivity. Qed.

Lemma includes_later part pre whole :
  includes part whole -> includes part (pre ++ whole)%string.
Proof.
  intros (b & a & ->). exists (pre ++ b)%string, a.
  rewrite string_app_assoc. reflexivity.
Qed.

Lemma includes_end part : includes part part.
Proof.
  exists "", "". simpl. induction part as [|ch p IH]; simpl; congruence.
Qed.

(** C4: for a non-empty [normalized_shape], an input with fewer dimensions
    or with trailing dimensions different from [normalized_shape] makes
    [check_args] throw; the message prints [normalized_shape], the pattern
    [[*, d0, d1, ...]] built from it, and the input shape.  An input
    without dimensions fails this way for every one-entry
    [normalized_shape]. *)
Theorem resolveDimensions_shape_mismatch input normalized_shape u1 u2 :
  normalized_shape <> [] ->
  (List.length (sizes input) < List.length normalized_shape)%nat
  \/ skipn (List.length (sizes input) - List.length normalized_shape)
           (sizes input) <> normalized_shape ->
  exists what,
    check_args_input input normalized_shape u1 u2 = Err (runtime_error what)
    /\ what = ("Given normalized_shape=" ++ show_IntList normalized_shape
               ++ ", expected input with shape [*"
               ++ show_pattern_tail normalized_shape
               ++ "], but got input of size"
               ++ show_IntList (sizes input))%string
    /\ includes (show_IntList normalized_shape) what
    /\ includes (show_IntList (sizes input)) what
    /\ includes ("[*" ++ show_pattern_tail normalized_shape ++ "]") what
    /\ (forall t x, sizes t = [] ->
          check_args_input t [x] u1 u2
          = Err (runtime_error
                   ("Given normalized_shape=[" ++ show_int64 x
                    ++ "], expected input with shape [*, " ++ show_int64 x
                    ++ "], but got input of size[]"))).
Proof.
  intros Hne Hbad. eexists. split; [|split; [reflexivity|]].
  - unfold check_args_input.
    fold (empty_guard normalized_shape). rewrite (empty_guard_false _ Hne).
    destruct (Z.ltb_spec (dim input) (size normalized_shape)) as [Hlt|Hge];
      [reflexivity|].
    destruct Hbad as [Hshort|Htail];
      [unfold dim, size in Hge; lia|].
    replace (equals _ normalized_shape) with false; [reflexivity|].
    symmetry. apply equals_false. unfold slice, dim, size.
    rewrite <- Nat2Z.inj_sub by (unfold dim, size in Hge; lia).
    rewrite Nat2Z.id. exact Htail.
  - repeat split.
    + apply (includes_later _ "Given normalized_shape="), includes_here.
    + do 5 apply includes_later. apply includes_end.
    + apply includes_later, includes_later.
      apply (includes_later _ ", expected input with shape ").
      exists "", (", but got input of size" ++ show_IntList (sizes input))%string.
      cbn [append]. rewrite !string_app_assoc. reflexivity.
    + intros t x Ht. unfold check_args_input, dim. rewrite Ht. simpl.
      unfold show_IntList. simpl. rewrite !string_app_assoc. reflexivity.
Qed.

Lemma resolveDimensions_shape_mismatch_witness :
  exists what,
    check_args_input (cuda_tensor [2; 3; 8] kFloat) [4; 8] 0 0
    = Err (runtime_error what)
    /\ what = "Given normalized_shape=[4, 8], expected input with shape [*, 4, 8], but got input of size[2, 3, 8]".
Proof.
  destruct (resolveDimensions_shape_mismatch
              (cuda_tensor [2; 3; 8] kFloat) [4; 8] 0 0)
    as (what & Hr & Hw & _).
  - discriminate.
  - right. simpl. intros H. discriminate H.
  - exists what. split; [exact Hr | rewrite Hw; reflexivity].
Defined.

(* ===================================================================== *)
(** * check_args(normalized_shape, gamma, beta) *)
(* ===================================================================== *)

Lemma affine_test ns t :
  defined t && negb (equals (sizes t) ns) = false <-> affine_ok ns t.
Proof.
  unfold affine_ok. destruct (defined t); simpl.
  - rewrite negb_false_iff, equals_spec. tauto.
  - split; [discriminate | reflexivity].
Qed.

(** C5: [check_args] on [gamma] and [beta] succeeds exactly when each of
    them is undefined or of shape [normalized_shape].  [gamma] is tested
    first: a defined [gamma] of another shape gives the error that names
    gamma whatever [beta] is; when [gamma] passes, a defined [beta] of
    another shape gives the error that names beta.  An undefined tensor
    never causes an error. *)
Theorem validateAffineParams_spec normalized_shape gamma beta :
  (check_args_gamma_beta normalized_shape gamma beta = Ok tt
   <-> affine_ok normalized_shape gamma /\ affine_ok normalized_shape beta)
  /\ (~ affine_ok normalized_shape gamma ->
      check_args_gamma_beta normalized_shape gamma beta
      = Err (runtime_error
               ("Expected gamma to be of same shape as normalized_shape, but got "
                ++ "gamma of shape " ++ show_IntList (sizes gamma)
                ++ " and normalized_shape=" ++ show_IntList normalized_shape)))
  /\ (affine_ok normalized_shape gamma -> ~ affine_ok normalized_shape beta ->
      check_args_gamma_beta normalized_shape gamma beta
      = Err (runtime_error
               ("Expected beta to be of same shape as normalized_shape, but got "
                ++ "beta of shape " ++ show_IntList (sizes beta)
                ++ " and normalized_shape=" ++ show_IntList normalized_shape)))
  /\ (defined gamma = false -> defined beta = false ->
      check_args_gamma_beta normalized_shape gamma beta = Ok tt).
Proof.
  unfold check_args_gamma_beta.
  pose proof (affine_test normalized_shape gamma) as Hg.
  pose proof (affine_test normalized_shape beta) as Hb.
  destruct (defined gamma && negb (equals (sizes gamma) normalized_shape));
    [|destruct (defined beta && negb (equals (sizes beta) normalized_shape))].
  - assert (Hng : ~ affine_ok normalized_shape gamma)
      by (intros H; apply Hg in H; discriminate).
    repeat split; try (intros; reflexivity); try discriminate; try tauto.
    intros Du. exfalso. apply Hng. unfold affine_ok. congruence.
  - assert (Hog : affine_ok normalized_shape gamma) by (apply Hg; reflexivity).
    assert (Hnb : ~ affine_ok normalized_shape beta)
      by (intros H; apply Hb in H; discriminate).
    repeat split; try (intros; reflexivity); try discriminate; try tauto.
    intros _ Du. exfalso. apply Hnb. unfold affine_ok. congruence.
  - assert (Hog : affine_ok normalized_shape gamma) by (apply Hg; reflexivity).
    assert (Hob : affine_ok normalized_shape beta) by (apply Hb; reflexivity).
    repeat split; try (intros; reflexivity); try assumption; try tauto.
Qed.

Lemma validateAffineParams_spec_witness :
  check_args_gamma_beta [8] (cuda_tensor [4] kFloat) (cuda_tensor [8] kFloat)
  = Err (runtime_error
           "Expected gamma to be of same shape as normalized_shape, but got gamma of shape [4] and normalized_shape=[8]")
  /\ check_args_gamma_beta [8] (cuda_tensor [8] kFloat) (cuda_tensor [8] kFloat)
     = Ok tt.
Proof.
  split.
  - apply (validateAffineParams_spec [8] (cuda_tensor [4] kFloat)
             (cuda_tensor [8] kFloat)).
    unfold affine_ok. simpl. intros H. specialize (H eq_refl). discriminate H.
  - apply (proj1 (validateAffineParams_spec [8] (cuda_tensor [8] kFloat)
                    (cuda_tensor [8] kFloat))).
    split; intros _; reflexivity.
Defined.

(* ===================================================================== *)
(** * The entry points *)
(* ===================================================================== *)

Lemma check_args_ok input ns gamma beta u1 u2 n :
  check_args input ns gamma beta u1 u2 = Ok n ->
  check_args_input input ns u1 u2 = Ok n.
Proof.
  unfold check_args.
  destruct (check_args_input input ns u1 u2) as [m|e]; simpl; [|discriminate].
  destruct (check_args_gamma_beta ns gamma beta) as [[]|e]; simpl;
    congruence.
Qed.

(** C6, as stated, fails: a single-precision input is accepted and is
    neither double nor int64, yet [mean] and [invvar] get the input's own
    element type, which is not of extended precision relative to it. *)
Lemma forward_statistics_counterexample :
  let input := cuda_tensor [4; 8] kFloat in
  exists output mean invvar w,
    layer_norm 0 0 input [8] [] = (Ok [output; mean; invvar], w)
    /\ scalar_type input <> kDouble /\ scalar_type input <> kLong
    /\ scalar_type mean = scalar_type input
    /\ scalar_type invvar = scalar_type input
    /\ extended_precision_float (scalar_type mean) (scalar_type input) = false.
Proof.
  cbv zeta. do 4 eexists.
  split; [reflexivity|]. repeat split; discriminate.
Qed.

(** C6 (amended): for every input accepted by [forward] or
    [forward_affine], [mean] and [invvar] have shape [[n1]] and a
    floating-point element type: double precision when the input holds
    double or int64 elements and single precision for every other
    accepted element type. *)
Theorem forward_statistics_layout u1 u2 input normalized_shape w outs w' :
  layer_norm u1 u2 input normalized_shape w = (Ok outs, w')
  \/ (exists gamma beta,
        layer_norm_affine u1 u2 input normalized_shape gamma beta w
        = (Ok outs, w')) ->
  exists n1 n2 output mean invvar,
    check_args_input input normalized_shape u1 u2 = Ok (n1, n2)
    /\ outs = [output; mean; invvar]
    /\ sizes mean = [n1] /\ sizes invvar = [n1]
    /\ scalar_type mean = statistics_type (scalar_type input)
    /\ scalar_type invvar = statistics_type (scalar_type input)
    /\ is_floating_point (scalar_type mean) = true.
Proof.
  intros [H | (gamma & beta & H)]; revert H; unfold_entry.
  - split_flags; try discriminate.
    destruct (check_args_input input normalized_shape u1 u2)
      as [[n1 n2]|e]; [|discriminate].
    destruct (scalar_type input); try discriminate;
      intros H; injection H as <- _;
      exists n1, n2; do 3 eexists; repeat split.
  - split_flags; try discriminate.
    destruct (check_args input normalized_shape gamma beta u1 u2)
      as [[n1 n2]|e] eqn:E; [|discriminate].
    apply check_args_ok in E. rewrite E.
    destruct (scalar_type input); try discriminate;
      intros H; injection H as <- _;
      exists n1, n2; do 3 eexists; repeat split.
Qed.

Lemma forward_statistics_layout_witness :
  exists n1 n2 output mean invvar,
    check_args_input (cuda_tensor [2; 3; 8] kHalf) [3; 8] 0 0 = Ok (n1, n2)
    /\ [cuda_tensor [2; 3; 8] kHalf; cuda_tensor [2] kFloat;
        cuda_tensor [2] kFloat] = [output; mean; invvar]
    /\ sizes mean = [n1] /\ sizes invvar = [n1]
    /\ scalar_type mean = statistics_type kHalf
    /\ scalar_type invvar = statistics_type kHalf
    /\ is_floating_point (scalar_type mean) = true.
Proof.
  apply (forward_statistics_layout 0 0 (cuda_tensor [2; 3; 8] kHalf) [3; 8] []
           [cuda_tensor [2; 3; 8] kHalf; cuda_tensor [2] kFloat;
            cuda_tensor [2] kFloat]
           [Allocate [2; 3; 8] kHalf; Allocate [2] kFloat; Allocate [2] kFloat;
            LaunchForward 2 24 [3; 8] false]).
  left. reflexivity.
Defined.

(** A successful forward call allocates [output], [mean] and [invvar], in
    this order, and then launches the kernel. *)
Example layer_norm_events :
  layer_norm 0 0 (cuda_tensor [2; 3; 8] kHalf) [3; 8] []
  = (Ok [cuda_tensor [2; 3; 8] kHalf; cuda_tensor [2] kFloat;
         cuda_tensor [2] kFloat],
     [Allocate [2; 3; 8] kHalf; Allocate [2] kFloat; Allocate [2] kFloat;
      LaunchForward 2 24 [3; 8] false]).
Proof. reflexivity. Qed.

(** A backward call on a tensor that is not on the device stops at the
    first check. *)
Example layer_norm_gradient_not_cuda :
  layer_norm_gradient 0 0 (mkTensor true [2; 8] kFloat false true)
    (cuda_tensor [2] kFloat) (cuda_tensor [2] kFloat)
    (cuda_tensor [2; 8] kFloat) [8] []
  = (Err (at_error "dout must be a CUDA tensor"), []).
Proof. reflexivity. Qed.

(** C7: in each of the four entry points a call that ends in an error has
    performed no allocation and launched no kernel: the events are those
    that preceded the call.  This holds for the device and contiguity
    checks and for both kinds of shape error alike. *)
Theorem validation_precedes_effects u1 u2 e w w' :
  (exists input normalized_shape,
      layer_norm u1 u2 input normalized_shape w = (Err e, w'))
  \/ (exists input normalized_shape gamma beta,
        layer_norm_affine u1 u2 input normalized_shape gamma beta w
        = (Err e, w'))
  \/ (exists dout mean invvar input normalized_shape,
        layer_norm_gradient u1 u2 dout mean invvar input normalized_shape w
        = (Err e, w'))
  \/ (exists dout mean invvar input normalized_shape gamma beta,
        layer_norm_gradient_affine u1 u2 dout mean invvar input
          normalized_shape gamma beta w
        = (Err e, w')) ->
  w' = w.
Proof.
  intros [(input & ns & H)
         | [(input & ns & gamma & beta & H)
           | [(dout & mean & invvar & input & ns & H)
             | (dout & mean & invvar & input & ns & gamma & beta & H)]]];
    revert H; unfold_entry; split_flags;
    try (intros H; injection H as _ <-; reflexivity).
  - destruct (check_args_input input ns u1 u2) as [[n1 n2]|e'];
      [destruct (scalar_type input)|];
      intros H; try discriminate H; injection H as _ <-; reflexivity.
  - destruct (check_args input ns gamma beta u1 u2) as [[n1 n2]|e'];
      [destruct (scalar_type input)|];
      intros H; try discriminate H; injection H as _ <-; reflexivity.
  - destruct (check_args_input input ns u1 u2) as [[n1 n2]|e'];
      intros H; try discriminate H; injection H as _ <-; reflexivity.
  - destruct (check_args input ns gamma beta u1 u2) as [[n1 n2]|e'];
      intros H; try discriminate H; injection H as _ <-; reflexivity.
Qed.

Lemma validation_precedes_effects_witness :
  layer_norm_affine 0 0 (cuda_tensor [2; 3; 8] kFloat) [3; 8]
    (cuda_tensor [3; 4] kFloat) (cuda_tensor [3; 8] kFloat) []
  = (Err (runtime_error
            "Expected gamma to be of same shape as normalized_shape, but got gamma of shape [3, 4] and normalized_shape=[3, 8]"),
     [])
  /\ snd (layer_norm_affine 0 0 (cuda_tensor [2; 3; 8] kFloat) [3; 8]
            (cuda_tensor [3; 4] kFloat) (cuda_tensor [3; 8] kFloat) [])
     = [].
Proof.
  split; [reflexivity|].
  apply (validation_precedes_effects 0 0
           (runtime_error
              "Expected gamma to be of same shape as normalized_shape, but got gamma of shape [3, 4] and normalized_shape=[3, 8]")).
  right. left.
  exists (cuda_tensor [2; 3; 8] kFloat), [3; 8],
    (cuda_tensor [3; 4] kFloat), (cuda_tensor [3; 8] kFloat).
  reflexivity.
Defined.

(* ===================================================================== *)
(** * compute_n1_n2 outside check_args *)
(* ===================================================================== *)

Section ComputeOutcome.





End ComputeOutcome.



(* ===================================================================== *)
(** * What the checks accept *)
(* ===================================================================== *)

Section Acceptance.

Lemma empty_guard_nonempty ns : empty_guard ns = false -> ns <> [].
Proof. intros H ->. discriminate H. Qed.

Lemma check_args_input_inv input ns u1 u2 n :
  check_args_input input ns u1 u2 = Ok n ->
  ns <> [] /\ is_suffix input ns.
Proof.
  unfold check_args_input.
  fold (empty_guard ns). fold (mismatch_guard input ns).
  destruct (empty_guard ns) eqn:He; [discriminate|].
  destruct (mismatch_guard input ns) eqn:Hm; [discriminate|].
  intros _. split.
  - apply empty_guard_nonempty, He.
  - apply mismatch_guard_false, Hm.
Qed.

Lemma check_args_input_value input ns u1 u2 :
  ns <> [] -> is_suffix input ns -> rank_fits_int input ->
  check_args_input input ns u1 u2
  = Ok (int_product (leading input ns), int_product ns).
Proof.
  intros Hne [pre Hpre] Hrank.
  rewrite (leading_suffix input pre ns Hpre).
  apply check_args_input_suffix; assumption.
Qed.

Lemma product_zero l : In 0 l -> product l = 0.
Proof.
  unfold product. generalize 1.
  induction l as [|x l IH]; intros a H; [contradiction|].
  cbn [fold_left]. destruct H as [->|H]; [|apply IH, H].
  rewrite fold_mul_scale. lia.
Qed.

Lemma check_args_input_err input ns u1 u2 e :
  rank_fits_int input ->
  check_args_input input ns u1 u2 = Err e ->
  exists what, e = runtime_error what.
Proof.
  intros Hrank. unfold check_args_input.
  fold (empty_guard ns). fold (mismatch_guard input ns).
  destruct (empty_guard ns) eqn:He;
    [intros H; injection H as <-; eexists; reflexivity|].
  destruct (mismatch_guard input ns) eqn:Hm;
    [intros H; injection H as <-; eexists; reflexivity|].
  apply mismatch_guard_false in Hm as [pre Hpre].
  rewrite (compute_n1_n2_suffix input pre ns Hpre Hrank).
  discriminate.
Qed.

Lemma check_args_ok_iff input ns gamma beta u1 u2 n :
  check_args input ns gamma beta u1 u2 = Ok n
  <-> check_args_input input ns u1 u2 = Ok n
      /\ affine_ok ns gamma /\ affine_ok ns beta.
Proof.
  unfold check_args, check_args_gamma_beta.
  pose proof (affine_test ns gamma) as Hg.
  pose proof (affine_test ns beta) as Hb.
  destruct (check_args_input input ns u1 u2) as [m|e]; simpl;
    [|split; [discriminate | intros [H _]; discriminate H]].
  destruct (defined gamma && negb (equals (sizes gamma) ns));
    [|destruct (defined beta && negb (equals (sizes beta) ns))];
    simpl; split; intros H;
    try discriminate H; try (destruct H as (H & G & B)).
  - apply Hg in G. discriminate G.
  - apply Hb in B. discriminate B.
  - repeat split; [exact H | apply Hg | apply Hb]; reflexivity.
  - exact H.
Qed.

Lemma check_args_err input ns gamma beta u1 u2 e :
  rank_fits_int input ->
  check_args input ns gamma beta u1 u2 = Err e ->
  exists what, e = runtime_error what.
Proof.
  intros Hrank. unfold check_args.
  destruct (check_args_input input ns u1 u2) as [m|e'] eqn:E; simpl.
  - unfold check_args_gamma_beta.
    destruct (defined gamma && negb (equals (sizes gamma) ns));
      [|destruct (defined beta && negb (equals (sizes beta) ns))]; simpl;
      intros H; try discriminate H; injection H as <-; eexists; reflexivity.
  - intros H. injection H as <-.
    apply (check_args_input_err input ns u1 u2 e' Hrank E).
Qed.

Lemma check_args_value input ns gamma beta u1 u2 :
  ns <> [] -> is_suffix input ns -> rank_fits_int input ->
  sizes gamma = ns -> sizes beta = ns ->
  check_args input ns gamma beta u1 u2
  = Ok (int_product (leading input ns), int_product ns).
Proof.
  intros Hne Hsuf Hrank Hg Hb. apply check_args_ok_iff.
  split; [apply check_args_input_value; assumption|].
  split; intros _; assumption.
Qed.

End Acceptance.

(** On inputs whose rank is representable, [check_args] on the input shape
    either returns or throws [std::runtime_error]: it never reaches the
    failing [assert] nor a read outside an array. *)
Theorem check_args_input_throws_only_runtime_error input normalized_shape u1 u2 e :
  rank_fits_int input ->
  check_args_input input normalized_shape u1 u2 = Err e ->
  exists what, e = runtime_error what.
Proof.
  intros Hrank. unfold check_args_input.
  fold (empty_guard normalized_shape).
  fold (mismatch_guard input normalized_shape).
  destruct (empty_guard normalized_shape) eqn:He;
    [intros H; injection H as <-; eexists; reflexivity|].
  destruct (mismatch_guard input normalized_shape) eqn:Hm;
    [intros H; injection H as <-; eexists; reflexivity|].
  apply mismatch_guard_false in Hm as [pre Hpre].
  rewrite (compute_n1_n2_suffix input pre normalized_shape Hpre Hrank).
  discriminate.
Qed.

Lemma check_args_input_throws_only_runtime_error_witness :
  exists what,
    runtime_error
      "Given normalized_shape=[7], expected input with shape [*, 7], but got input of size[2, 8]"
    = runtime_error what.
Proof.
  apply (check_args_input_throws_only_runtime_error
           (cuda_tensor [2; 8] kFloat) [7] 0 0).
  - vm_compute. discriminate.
  - reflexivity.
Defined.

(** The six-argument [check_args] returns exactly when the input check
    returns and [gamma] and [beta] each pass the affine check; it then
    hands back the pair of the input check.  A successful call therefore
    guarantees a non-empty [normalized_shape] that is a suffix of the
    input shape.  An error of the input check is reported whatever
    [gamma] and [beta] are. *)
Theorem check_args_returns_iff input normalized_shape gamma beta u1 u2 :
  (forall n,
      check_args input normalized_shape gamma beta u1 u2 = Ok n
      <-> check_args_input input normalized_shape u1 u2 = Ok n
          /\ affine_ok normalized_shape gamma
          /\ affine_ok normalized_shape beta)
  /\ (forall n,
        check_args input normalized_shape gamma beta u1 u2 = Ok n ->
        normalized_shape <> [] /\ is_suffix input normalized_shape)
  /\ (forall e,
        check_args_input input normalized_shape u1 u2 = Err e ->
        check_args input normalized_shape gamma beta u1 u2 = Err e).
Proof.
  pose proof (check_args_ok_iff input normalized_shape gamma beta u1 u2)
    as Hiff.
  split; [exact Hiff|]. split.
  - intros n H. apply Hiff in H as [H _].
    apply (check_args_input_inv _ _ _ _ _ H).
  - intros e H. unfold check_args. rewrite H. reflexivity.
Qed.

Lemma check_args_returns_iff_witness :
  check_args (cuda_tensor [2; 3; 8] kFloat) [3; 8]
    (cuda_tensor [3; 8] kFloat) (cuda_tensor [3; 8] kFloat) 0 0
  = Ok (2, 24)
  /\ check_args (cuda_tensor [2; 3; 8] kFloat) []
       (cuda_tensor [3; 8] kFloat) (cuda_tensor [3; 8] kFloat) 0 0
     = Err (runtime_error
              "Expected normalized_shape to be at least 1-dimensional, i.e., containing at least one element, but got normalized_shape=[]").
Proof.
  split.
  - apply (proj1 (check_args_returns_iff (cuda_tensor [2; 3; 8] kFloat) [3; 8]
                    (cuda_tensor [3; 8] kFloat) (cuda_tensor [3; 8] kFloat) 0 0)).
    split; [reflexivity|]. split; intros _; reflexivity.
  - apply (proj2 (proj2 (check_args_returns_iff
                           (cuda_tensor [2; 3; 8] kFloat) []
                           (cuda_tensor [3; 8] kFloat)
                           (cuda_tensor [3; 8] kFloat) 0 0))).
    reflexivity.
Defined.

(** A dimension of size zero makes the count it belongs to zero: zero among
    the leading sizes gives [n1 = 0], zero in [normalized_shape] gives
    [n2 = 0].  The call still returns normally. *)
Theorem check_args_input_zero_size input normalized_shape u1 u2 :
  normalized_shape <> [] ->
  is_suffix input normalized_shape ->
  rank_fits_int input ->
  exists n1 n2,
    check_args_input input normalized_shape u1 u2 = Ok (n1, n2)
    /\ (In 0 (leading input normalized_shape) -> n1 = 0)
    /\ (In 0 normalized_shape -> n2 = 0).
Proof.
  intros Hne Hsuf Hrank.
  exists (int_product (leading input normalized_shape)),
         (int_product normalized_shape).
  split; [apply check_args_input_value; assumption|].
  rewrite !int_product_eq.
  split; intros H; rewrite (product_zero _ H); reflexivity.
Qed.

Lemma check_args_input_zero_size_witness :
  exists n1 n2,
    check_args_input (cuda_tensor [0; 65537; 65537] kFloat) [65537; 65537] 0 0
    = Ok (n1, n2)
    /\ n1 = 0.
Proof.
  destruct (check_args_input_zero_size
              (cuda_tensor [0; 65537; 65537] kFloat) [65537; 65537] 0 0)
    as (n1 & n2 & Hr & H1 & _).
  - discriminate.
  - exists [0]. reflexivity.
  - vm_compute. discriminate.
  - exists n1, n2. split; [exact Hr|]. apply H1. left. reflexivity.
Defined.

(** When [normalized_shape] is the whole input shape there is a single
    row: [n1 = 1], and [n2] is the truncated product of all sizes. *)
Theorem check_args_input_whole_shape input u1 u2 :
  sizes input <> [] ->
  rank_fits_int input ->
  check_args_input input (sizes input) u1 u2
  = Ok (1, int_product (sizes input)).
Proof.
  intros Hne Hrank.
  apply (check_args_input_suffix input [] (sizes input) u1 u2 Hne eq_refl Hrank).
Qed.

Lemma check_args_input_whole_shape_witness :
  check_args_input (cuda_tensor [3; 8] kFloat) [3; 8] 0 0 = Ok (1, 24).
Proof.
  apply (check_args_input_whole_shape (cuda_tensor [3; 8] kFloat) 0 0).
  - discriminate.
  - vm_compute. discriminate.
Defined.

(* ===================================================================== *)
(** * What the entry points do *)
(* ===================================================================== *)

(** [CHECK_INPUT] is applied to the tensor arguments in the order in which
    they are written, the device test before the contiguity test, and all
    of them before any shape is looked at: the first argument that fails
    decides the error of the call, whatever the shapes are. *)
Theorem check_input_order u1 u2 e w :
  (forall input ns,
      first_failure [("input", input)] = Some e ->
      layer_norm u1 u2 input ns w = (Err e, w))
  /\ (forall input ns gamma beta,
        first_failure [("input", input); ("gamma", gamma); ("beta", beta)]
        = Some e ->
        layer_norm_affine u1 u2 input ns gamma beta w = (Err e, w))
  /\ (forall dout mean invvar input ns,
        first_failure [("dout", dout); ("mean", mean); ("invvar", invvar);
                       ("input", input)] = Some e ->
        layer_norm_gradient u1 u2 dout mean invvar input ns w = (Err e, w))
  /\ (forall dout mean invvar input ns gamma beta,
        first_failure [("dout", dout); ("mean", mean); ("invvar", invvar);
                       ("input", input); ("gamma", gamma); ("beta", beta)]
        = Some e ->
        layer_norm_gradient_affine u1 u2 dout mean invvar input ns gamma beta w
        = (Err e, w)).
Proof.
  repeat split; intros; revert H;
    unfold first_failure, check_failure; unfold_entry.
  - check_tensor input. discriminate.
  - check_tensor input. check_tensor gamma. check_tensor beta. discriminate.
  - check_tensor dout. check_tensor mean. check_tensor invvar.
    check_tensor input. discriminate.
  - check_tensor dout. check_tensor mean. check_tensor invvar.
    check_tensor input. check_tensor gamma. check_tensor beta. discriminate.
Qed.

Lemma check_input_order_witness :
  layer_norm_gradient_affine 0 0
    (cuda_tensor [2; 8] kFloat) (mkTensor true [2] kFloat true false)
    (mkTensor true [2] kFloat false false) (cuda_tensor [3; 8] kFloat) []
    (cuda_tensor [7] kFloat) (cuda_tensor [8] kFloat) []
  = (Err (at_error "mean must be contiguous"), []).
Proof.
  apply (check_input_order 0 0 (at_error "mean must be contiguous") []).
  reflexivity.
Defined.

(** [forward]: on a usable input of a dispatched element type whose shape
    ends with a non-empty [normalized_shape], the call allocates [output]
    like the input, then [mean] and [invvar] of shape [[n1]], launches the
    kernel once with [(n1, n2)] and without scale and shift, and returns
    the three tensors.  Conversely a call that returns had such
    arguments. *)
Theorem layer_norm_returns u1 u2 input normalized_shape w :
  rank_fits_int input ->
  let n1 := int_product (leading input normalized_shape) in
  let n2 := int_product normalized_shape in
  let stat := statistics_type (scalar_type input) in
  (usable input -> normalized_shape <> [] ->
   is_suffix input normalized_shape ->
   supported (scalar_type input) = true ->
   layer_norm u1 u2 input normalized_shape w
   = (Ok [cuda_tensor (sizes input) (scalar_type input);
          cuda_tensor [n1] stat; cuda_tensor [n1] stat],
      w ++ [Allocate (sizes input) (scalar_type input);
            Allocate [n1] stat; Allocate [n1] stat;
            LaunchForward n1 n2 normalized_shape false]))
  /\ (forall outs w',
        layer_norm u1 u2 input normalized_shape w = (Ok outs, w') ->
        usable input /\ normalized_shape <> []
        /\ is_suffix input normalized_shape
        /\ supported (scalar_type input) = true).
Proof.
  intros Hrank. cbv zeta. split.
  - intros [Hc Hk] Hne Hsuf Hsup. unfold_entry. rewrite Hc, Hk.
    rewrite (check_args_input_value input normalized_shape u1 u2 Hne Hsuf Hrank).
    unfold cuda_tensor.
    destruct (scalar_type input); try discriminate Hsup; cbn;
      rewrite <- !app_assoc; reflexivity.
  - intros outs w'. unfold usable. unfold_entry.
    destruct (is_cuda input); [|discriminate].
    destruct (is_contiguous input); [|discriminate].
    destruct (check_args_input input normalized_shape u1 u2)
      as [[n1 n2]|e] eqn:E; [|discriminate].
    apply check_args_input_inv in E as [Hne Hsuf].
    destruct (scalar_type input); try discriminate; intros _;
      repeat split; assumption.
Qed.

Lemma layer_norm_returns_witness :
  layer_norm 0 0 (cuda_tensor [2; 0; 8] kLong) [8] []
  = (Ok [cuda_tensor [2; 0; 8] kLong; cuda_tensor [0] kDouble;
         cuda_tensor [0] kDouble],
     [Allocate [2; 0; 8] kLong; Allocate [0] kDouble; Allocate [0] kDouble;
      LaunchForward 0 8 [8] false]).
Proof.
  apply (layer_norm_returns 0 0 (cuda_tensor [2; 0; 8] kLong) [8] []).
  - vm_compute. discriminate.
  - split; reflexivity.
  - discriminate.
  - exists [2; 0]. reflexivity.
  - reflexivity.
Defined.

(** [forward_affine]: as [forward], with [gamma] and [beta] usable and of
    shape [normalized_shape]; the kernel is launched with scale and shift.
    Conversely a call that returns had usable tensors, a matching input
    shape, and a [gamma] and a [beta] that pass the affine check. *)
Theorem layer_norm_affine_returns u1 u2 input normalized_shape gamma beta w :
  rank_fits_int input ->
  let n1 := int_product (leading input normalized_shape) in
  let n2 := int_product normalized_shape in
  let stat := statistics_type (scalar_type input) in
  (usable input -> usable gamma -> usable beta ->
   normalized_shape <> [] -> is_suffix input normalized_shape ->
   sizes gamma = normalized_shape -> sizes beta = normalized_shape ->
   supported (scalar_type input) = true ->
   layer_norm_affine u1 u2 input normalized_shape gamma beta w
   = (Ok [cuda_tensor (sizes input) (scalar_type input);
          cuda_tensor [n1] stat; cuda_tensor [n1] stat],
      w ++ [Allocate (sizes input) (scalar_type input);
            Allocate [n1] stat; Allocate [n1] stat;
            LaunchForward n1 n2 normalized_shape true]))
  /\ (forall outs w',
        layer_norm_affine u1 u2 input normalized_shape gamma beta w
        = (Ok outs, w') ->
        usable input /\ usable gamma /\ usable beta
        /\ normalized_shape <> [] /\ is_suffix input normalized_shape
        /\ affine_ok normalized_shape gamma
        /\ affine_ok normalized_shape beta
        /\ supported (scalar_type input) = true).
Proof.
  intros Hrank. cbv zeta. split.
  - intros [Hc Hk] [Hgc Hgk] [Hbc Hbk] Hne Hsuf Hg Hb Hsup.
    unfold_entry. rewrite Hc, Hk, Hgc, Hgk, Hbc, Hbk.
    rewrite (check_args_value input normalized_shape gamma beta u1 u2
               Hne Hsuf Hrank Hg Hb).
    unfold cuda_tensor.
    destruct (scalar_type input); try discriminate Hsup; cbn;
      rewrite <- !app_assoc; reflexivity.
  - intros outs w'. unfold usable. unfold_entry.
    destruct (is_cuda input); [|discriminate].
    destruct (is_contiguous input); [|discriminate].
    destruct (is_cuda gamma); [|discriminate].
    destruct (is_contiguous gamma); [|discriminate].
    destruct (is_cuda beta); [|discriminate].
    destruct (is_contiguous beta); [|discriminate].
    destruct (check_args input normalized_shape gamma beta u1 u2)
      as [[n1 n2]|e] eqn:E; [|discriminate].
    apply check_args_ok_iff in E as (E & Hg & Hb).
    apply check_args_input_inv in E as [Hne Hsuf].
    destruct (scalar_type input); try discriminate; intros _;
      repeat split; assumption.
Qed.

Lemma layer_norm_affine_returns_witness :
  layer_norm_affine 0 0 (cuda_tensor [2; 3; 8] kHalf) [3; 8]
    (cuda_tensor [3; 8] kHalf) (cuda_tensor [3; 8] kFloat) []
  = (Ok [cuda_tensor [2; 3; 8] kHalf; cuda_tensor [2] kFloat;
         cuda_tensor [2] kFloat],
     [Allocate [2; 3; 8] kHalf; Allocate [2] kFloat; Allocate [2] kFloat;
      LaunchForward 2 24 [3; 8] true]).
Proof.
  apply (layer_norm_affine_returns 0 0 (cuda_tensor [2; 3; 8] kHalf) [3; 8]
           (cuda_tensor [3; 8] kHalf) (cuda_tensor [3; 8] kFloat) []).
  - vm_compute. discriminate.
  - split; reflexivity.
  - split; reflexivity.
  - split; reflexivity.
  - discriminate.
  - exists [2]. reflexivity.
  - reflexivity.
  - reflexivity.
  - reflexivity.
Defined.

(** [backward]: with [dout], [mean], [invvar] and [input] usable and the
    input shape ending with a non-empty [normalized_shape], the call
    allocates [grad_input] like the input, launches the gradient kernel
    once and returns [grad_input].  There is no dispatch on the element
    type here, so every element type is let through.  Conversely a call
    that returns had such arguments. *)
Theorem layer_norm_gradient_returns u1 u2 dout mean invvar input
        normalized_shape w :
  rank_fits_int input ->
  let n1 := int_product (leading input normalized_shape) in
  let n2 := int_product normalized_shape in
  (usable dout -> usable mean -> usable invvar -> usable input ->
   normalized_shape <> [] -> is_suffix input normalized_shape ->
   layer_norm_gradient u1 u2 dout mean invvar input normalized_shape w
   = (Ok (cuda_tensor (sizes input) (scalar_type input)),
      w ++ [Allocate (sizes input) (scalar_type input);
            LaunchBackward n1 n2 normalized_shape false]))
  /\ (forall grad_input w',
        layer_norm_gradient u1 u2 dout mean invvar input normalized_shape w
        = (Ok grad_input, w') ->
        usable dout /\ usable mean /\ usable invvar /\ usable input
        /\ normalized_shape <> [] /\ is_suffix input normalized_shape).
Proof.
  intros Hrank. cbv zeta. split.
  - intros [Hdc Hdk] [Hmc Hmk] [Hic Hik] [Hc Hk] Hne Hsuf.
    unfold_entry. rewrite Hdc, Hdk, Hmc, Hmk, Hic, Hik, Hc, Hk.
    rewrite (check_args_input_value input normalized_shape u1 u2 Hne Hsuf Hrank).
    cbn. rewrite <- !app_assoc. reflexivity.
  - intros grad_input w'. unfold usable. unfold_entry.
    destruct (is_cuda dout); [|discriminate].
    destruct (is_contiguous dout); [|discriminate].
    destruct (is_cuda mean); [|discriminate].
    destruct (is_contiguous mean); [|discriminate].
    destruct (is_cuda invvar); [|discriminate].
    destruct (is_contiguous invvar); [|discriminate].
    destruct (is_cuda input); [|discriminate].
    destruct (is_contiguous input); [|discriminate].
    destruct (check_args_input input normalized_shape u1 u2)
      as [[n1 n2]|e] eqn:E; [|discriminate].
    apply check_args_input_inv in E as [Hne Hsuf].
    intros _. repeat split; assumption.
Qed.

Lemma layer_norm_gradient_returns_witness :
  layer_norm_gradient 0 0 (cuda_tensor [2; 3; 8] kFloat)
    (cuda_tensor [2] kFloat) (cuda_tensor [2] kFloat)
    (cuda_tensor [2; 3; 8] kComplexFloat) [3; 8] []
  = (Ok (cuda_tensor [2; 3; 8] kComplexFloat),
     [Allocate [2; 3; 8] kComplexFloat; LaunchBackward 2 24 [3; 8] false]).
Proof.
  apply (layer_norm_gradient_returns 0 0 (cuda_tensor [2; 3; 8] kFloat)
           (cuda_tensor [2] kFloat) (cuda_tensor [2] kFloat)
           (cuda_tensor [2; 3; 8] kComplexFloat) [3; 8] []).
  - vm_compute. discriminate.
  - split; reflexivity.
  - split; reflexivity.
  - split; reflexivity.
  - split; reflexivity.
  - discriminate.
  - exists [2]. reflexivity.
Defined.

(** [backward_affine]: with all six tensors usable, the input shape ending
    with a non-empty [normalized_shape], and [gamma] and [beta] of that
    shape, the call allocates [grad_input], [grad_gamma] and [grad_beta]
    like [input], [gamma] and [beta], in this order, launches the
    gradient kernel once and returns the three gradients.  Conversely a
    call that returns had such arguments. *)
Theorem layer_norm_gradient_affine_returns u1 u2 dout mean invvar input
        normalized_shape gamma beta w :
  rank_fits_int input ->
  let n1 := int_product (leading input normalized_shape) in
  let n2 := int_product normalized_shape in
  (usable dout -> usable mean -> usable invvar -> usable input ->
   usable gamma -> usable beta ->
   normalized_shape <> [] -> is_suffix input normalized_shape ->
   sizes gamma = normalized_shape -> sizes beta = normalized_shape ->
   layer_norm_gradient_affine u1 u2 dout mean invvar input normalized_shape
     gamma beta w
   = (Ok [cuda_tensor (sizes input) (scalar_type input);
          cuda_tensor normalized_shape (scalar_type gamma);
          cuda_tensor normalized_shape (scalar_type beta)],
      w ++ [Allocate (sizes input) (scalar_type input);
            Allocate normalized_shape (scalar_type gamma);
            Allocate normalized_shape (scalar_type beta);
            LaunchBackward n1 n2 normalized_shape true]))
  /\ (forall grads w',
        layer_norm_gradient_affine u1 u2 dout mean invvar input
          normalized_shape gamma beta w
        = (Ok grads, w') ->
        usable dout /\ usable mean /\ usable invvar /\ usable input
        /\ usable gamma /\ usable beta
        /\ normalized_shape <> [] /\ is_suffix input normalized_shape
        /\ affine_ok normalized_shape gamma
        /\ affine_ok normalized_shape beta).
Proof.
  intros Hrank. cbv zeta. split.
  - intros [Hdc Hdk] [Hmc Hmk] [Hic Hik] [Hc Hk] [Hgc Hgk] [Hbc Hbk]
           Hne Hsuf Hg Hb.
    unfold_entry.
    rewrite Hdc, Hdk, Hmc, Hmk, Hic, Hik, Hc, Hk, Hgc, Hgk, Hbc, Hbk.
    rewrite (check_args_value input normalized_shape gamma beta u1 u2
               Hne Hsuf Hrank Hg Hb).
    cbn. rewrite Hg, Hb, <- !app_assoc. reflexivity.
  - intros grads w'. unfold usable. unfold_entry.
    destruct (is_cuda dout); [|discriminate].
    destruct (is_contiguous dout); [|discriminate].
    destruct (is_cuda mean); [|discriminate].
    destruct (is_contiguous mean); [|discriminate].
    destruct (is_cuda invvar); [|discriminate].
    destruct (is_contiguous invvar); [|discriminate].
    destruct (is_cuda input); [|discriminate].
    destruct (is_contiguous input); [|discriminate].
    destruct (is_cuda gamma); [|discriminate].
    destruct (is_contiguous gamma); [|discriminate].
    destruct (is_cuda beta); [|discriminate].
    destruct (is_contiguous beta); [|discriminate].
    destruct (check_args input normalized_shape gamma beta u1 u2)
      as [[n1 n2]|e] eqn:E; [|discriminate].
    apply check_args_ok_iff in E as (E & Hg & Hb).
    apply check_args_input_inv in E as [Hne Hsuf].
    intros _. repeat split; assumption.
Qed.

Lemma layer_norm_gradient_affine_returns_witness :
  layer_norm_gradient_affine 0 0 (cuda_tensor [2; 3; 8] kFloat)
    (cuda_tensor [2] kFloat) (cuda_tensor [2] kFloat)
    (cuda_tensor [2; 3; 8] kFloat) [3; 8]
    (cuda_tensor [3; 8] kFloat) (cuda_tensor [3; 8] kHalf) []
  = (Ok [cuda_tensor [2; 3; 8] kFloat; cuda_tensor [3; 8] kFloat;
         cuda_tensor [3; 8] kHalf],
     [Allocate [2; 3; 8] kFloat; Allocate [3; 8] kFloat;
      Allocate [3; 8] kHalf; LaunchBackward 2 24 [3; 8] true]).
Proof.
  apply (layer_norm_gradient_affine_returns 0 0 (cuda_tensor [2; 3; 8] kFloat)
           (cuda_tensor [2] kFloat) (cuda_tensor [2] kFloat)
           (cuda_tensor [2; 3; 8] kFloat) [3; 8]
           (cuda_tensor [3; 8] kFloat) (cuda_tensor [3; 8] kHalf) []).
  - vm_compute. discriminate.
  - split; reflexivity.
  - split; reflexivity.
  - split; reflexivity.
  - split; reflexivity.
  - split; reflexivity.
  - split; reflexivity.
  - discriminate.
  - exists [2]. reflexivity.
  - reflexivity.
  - reflexivity.
Defined.





(** Whatever the arguments of representable rank, an entry point that
    fails does so with the error of a [CHECK_INPUT], with a
    [std::runtime_error] of [check_args], or, in the forward entry points
    only, with the dispatch error: never with a failed [assert] or a read
    outside an array. *)
Theorem entry_point_error_kinds u1 u2 e w w' :
  (exists input normalized_shape,
      rank_fits_int input
      /\ layer_norm u1 u2 input normalized_shape w = (Err e, w'))
  \/ (exists input normalized_shape gamma beta,
        rank_fits_int input
        /\ layer_norm_affine u1 u2 input normalized_shape gamma beta w
           = (Err e, w')) ->
  (exists what, e = at_error what)
  \/ (exists what, e = runtime_error what)
  \/ e = not_implemented "allocate_layer_norm_output_tensors".
Proof.
  intros [(input & ns & Hrank & H)
         | (input & ns & gamma & beta & Hrank & H)];
    revert H; unfold_entry; split_flags;
    try (intros H; injection H as <- _; left; eexists; reflexivity).
  - destruct (check_args_input input ns u1 u2) as [[n1 n2]|e'] eqn:E.
    + destruct (scalar_type input); intros H; try discriminate H;
        injection H as <- _; right; right; reflexivity.
    + intros H. injection H as <- _. right; left.
      apply (check_args_input_err input ns u1 u2 e' Hrank E).
  - destruct (check_args input ns gamma beta u1 u2) as [[n1 n2]|e'] eqn:E.
    + destruct (scalar_type input); intros H; try discriminate H;
        injection H as <- _; right; right; reflexivity.
    + intros H. injection H as <- _. right; left.
      apply (check_args_err input ns gamma beta u1 u2 e' Hrank E).
Qed.

Lemma entry_point_error_kinds_witness :
  (exists what, at_error "gamma must be contiguous" = at_error what)
  \/ (exists what, at_error "gamma must be contiguous" = runtime_error what)
  \/ at_error "gamma must be contiguous"
     = not_implemented "allocate_layer_norm_output_tensors".
Proof.
  apply (entry_point_error_kinds 0 0 (at_error "gamma must be contiguous")
           [] []).
  right. exists (cuda_tensor [2; 8] kFloat), [8],
    (mkTensor true [8] kFloat true false), (cuda_tensor [8] kFloat).
  split; [vm_compute; discriminate | reflexivity].
Defined.

(** The backward entry points fail only with the error of a
    [CHECK_INPUT] or with a [std::runtime_error] of [check_args]. *)
Theorem backward_error_kinds u1 u2 e w w' :
  (exists dout mean invvar input normalized_shape,
      rank_fits_int input
      /\ layer_norm_gradient u1 u2 dout mean invvar input normalized_shape w
         = (Err e, w'))
  \/ (exists dout mean invvar input normalized_shape gamma beta,
        rank_fits_int input
        /\ layer_norm_gradient_affine u1 u2 dout mean invvar input
             normalized_shape gamma beta w
           = (Err e, w')) ->
  (exists what, e = at_error what) \/ (exists what, e = runtime_error what).
Proof.
  intros [(dout & mean & invvar & input & ns & Hrank & H)
         | (dout & mean & invvar & input & ns & gamma & beta & Hrank & H)];
    revert H; unfold_entry; split_flags;
    try (intros H; injection H as <- _; left; eexists; reflexivity).
  - destruct (check_args_input input ns u1 u2) as [[n1 n2]|e'] eqn:E;
      intros H; [discriminate H|].
    injection H as <- _. right.
    apply (check_args_input_err input ns u1 u2 e' Hrank E).
  - destruct (check_args input ns gamma beta u1 u2) as [[n1 n2]|e'] eqn:E;
      intros H; [discriminate H|].
    injection H as <- _. right.
    apply (check_args_err input ns gamma beta u1 u2 e' Hrank E).
Qed.

Lemma backward_error_kinds_witness :
  (exists what,
      runtime_error
        "Given normalized_shape=[7], expected input with shape [*, 7], but got input of size[2, 8]"
      = at_error what)
  \/ (exists what,
        runtime_error
          "Given normalized_shape=[7], expected input with shape [*, 7], but got input of size[2, 8]"
        = runtime_error what).
Proof.
  apply (backward_error_kinds 0 0
           (runtime_error
              "Given normalized_shape=[7], expected input with shape [*, 7], but got input of size[2, 8]")
           [] []).
  left. exists (cuda_tensor [2; 8] kFloat), (cuda_tensor [2] kFloat),
    (cuda_tensor [2] kFloat), (cuda_tensor [2; 8] kFloat), [7].
  split; [vm_compute; discriminate | reflexivity].
Defined.
